(** * monitor: latency tracking through a process-wide default tracker

    A shallow embedding of [monitor.go].  The Go packages the file imports
    are kept apart in modules of their own ([context], [time], [threading]);
    the package itself is [monitor].

    Conventions.
    - A Go [func] value may be [nil]: it is an [option] here, and calling
      [None] panics with the runtime's nil-dereference error.
    - A [*LatencyTracker] is [nil] or the address of a struct nobody else
      holds: it is an [option LatencyTracker].
    - A panic is a result, not an exception: [Panic r] for the code that
      runs on the caller's goroutine, [Panicked r w] for a log function
      that leaves the world in state [w].
    - The clock is an input: [now] is what [time.Now()] reads during the
      call. *)

From Stdlib Require Import ZArith List String Bool Lia.
Import ListNotations.
Open Scope string_scope.
Open Scope list_scope.

(** ** Package [context] *)

Module context.

(** The contexts a caller can build: the nil interface value, the two
    root contexts and values hung below a parent. *)
Inductive Context : Type :=
| nilContext
| backgroundCtx
| todoCtx
| valueCtx (parent : Context) (key val : string).

Definition Background : Context := backgroundCtx.
Definition TODO : Context := todoCtx.
Definition WithValue (parent : Context) (key val : string) : Context :=
  valueCtx parent key val.

End context.

(** ** Package [time] *)

Module time.

Local Open Scope Z_scope.

(** An instant: nanoseconds since January 1 of year 1, 00:00:00 UTC,
    which is the zero [Time]. *)
Definition Time := Z.

(** [time.Time{}] *)
Definition zeroTime : Time := 0.

(** [type Duration int64], a count of nanoseconds. *)
Definition Duration := Z.

Definition minDuration : Duration := - 2 ^ 63.
Definition maxDuration : Duration := 2 ^ 63 - 1.

Definition Nanosecond : Duration := 1.
Definition Microsecond : Duration := 1000 * Nanosecond.
Definition Millisecond : Duration := 1000 * Microsecond.
Definition Second : Duration := 1000 * Millisecond.

(** [t.Sub(u)]: the duration [t - u]; when it does not fit a [Duration]
    the nearest bound is returned. *)
Definition Sub (t u : Time) : Duration :=
  if t - u <? minDuration then minDuration
  else if maxDuration <? t - u then maxDuration
  else t - u.

(** [time.Since(t)] is [time.Now().Sub(t)]. *)
Definition Since (now t : Time) : Duration := Sub now t.

(** [t.After(u)]. *)
Definition After (t u : Time) : bool := u <? t.

(** [int64] arithmetic wraps around. *)
Definition wrap64 (x : Z) : Z := (x + 2 ^ 63) mod 2 ^ 64 - 2 ^ 63.

(** [time.Unix(sec, 0)]: the Unix epoch is 62135596800 seconds after the
    zero [Time]; the sum is an [int64]. *)
Definition Unix (sec : Z) : Time := wrap64 (sec + 62135596800) * Second.

End time.

(** ** Values, the world and results *)

(** The [interface{}] values that travel as log arguments and as panic
    values. *)
Inductive Value : Type :=
| VNil
| VString (s : string)
| VDuration (d : time.Duration)
| VError (msg : string).

(** What a log function can leave behind. *)
Inductive Event : Type :=
| Printf (format : string) (args : list Value)
| Observed (ctx : context.Context) (format : string) (args : list Value).

Definition World := list Event.

(** The result of code that runs on the caller's goroutine. *)
Inductive Result (A : Type) : Type :=
| Ok (a : A)
| Panic (r : Value).
Arguments Ok {A} a.
Arguments Panic {A} r.

(** The result of code that runs against the world. *)
Inductive Outcome (A : Type) : Type :=
| Returned (a : A) (w : World)
| Panicked (r : Value) (w : World).
Arguments Returned {A} a w.
Arguments Panicked {A} r w.

Definition bindO {A B} (m : Outcome A) (k : A -> World -> Outcome B)
  : Outcome B :=
  match m with
  | Returned a w => k a w
  | Panicked r w => Panicked r w
  end.

(** The string ["\n"]. *)
Definition newline : string := String (Ascii.ascii_of_nat 10) EmptyString.

(** The value the runtime panics with when a nil func is called. *)
Definition nilDereference : Value :=
  VError "runtime error: invalid memory address or nil pointer dereference".

(** [func(ctx context.Context, format string, args ...interface{})] *)
Definition LogFunc : Type :=
  context.Context -> string -> list Value -> World -> Outcome unit.

(** Calling a log function value that may be nil. *)
Definition callLog (f : option LogFunc) (ctx : context.Context)
  (format : string) (args : list Value) (w : World) : Outcome unit :=
  match f with
  | Some g => g ctx format args w
  | None => Panicked nilDereference w
  end.

(** ** Package [threading] *)

Module threading.

(** Modelled from the spec: the safe-execution facility, package
    [github.com/UTC-Six/pool/threading], whose sources are not part of
    this repository.  The specification gives its contract as
    [submit(workItem, tag, logSink, recoveryHandler)]: the work item runs
    on a worker of its own, and a panic inside it is turned into a call
    of the recovery handler with the recovered value.  The log sink is
    there for the facility's own diagnostics; the model emits none. *)
Record Task : Type := submit
  { workItem : World -> Outcome Value;
    tag : string;
    logSink : string -> list Value -> World -> Outcome unit;
    recoveryHandler : Value -> World -> Outcome unit }.

(** Modelled from the spec: what the worker does with a submitted task. *)
Definition runWorker (t : Task) (w : World) : Outcome unit :=
  match workItem t w with
  | Returned _ w' => Returned tt w'
  | Panicked r w' => recoveryHandler t r w'
  end.

End threading.

(** ** Package [monitor] *)

Module monitor.

(** [type ContextEnhancer func(ctx context.Context) context.Context] *)
Definition ContextEnhancer : Type := context.Context -> context.Context.

Record LatencyTracker : Type :=
  { logger : option LogFunc;
    contextEnhancer : option ContextEnhancer }.

(** [type TrackerOption func(lt)] for [lt] a pointer to a tracker: nil, or
    a mutation of the tracker it is handed. *)
Definition TrackerOption : Type :=
  option (LatencyTracker -> LatencyTracker).

Definition WithLogger (logger : option LogFunc) : TrackerOption :=
  Some (fun lt =>
          {| logger := logger; contextEnhancer := lt.(contextEnhancer) |}).

Definition WithContextEnhancer (enhancer : option ContextEnhancer)
  : TrackerOption :=
  Some (fun lt => {| logger := lt.(logger); contextEnhancer := enhancer |}).

Definition defaultLogger : LogFunc :=
  fun ctx format args w =>
    Returned tt (w ++ [Printf (format ++ newline)%string args]).

Definition defaultContextEnhancer : ContextEnhancer :=
  fun ctx => context.Background.

(** [for _, opt := range opts { opt(lt) }] *)
Fixpoint applyOptions (opts : list TrackerOption) (lt : LatencyTracker)
  : Result LatencyTracker :=
  match opts with
  | [] => Ok lt
  | Some opt :: rest => applyOptions rest (opt lt)
  | None :: _ => Panic nilDereference
  end.

Definition NewLatencyTracker (opts : list TrackerOption)
  : Result LatencyTracker :=
  applyOptions opts
    {| logger := Some defaultLogger;
       contextEnhancer := Some defaultContextEnhancer |}.

(** The package's variables: [var defaultTracker *LatencyTracker]. *)
Record Package : Type :=
  { defaultTracker : option LatencyTracker }.

(** The zero value the program starts from. *)
Definition initial : Package := {| defaultTracker := None |}.

(** Code of the package that runs on the caller's goroutine reads and
    writes the package's variables and may panic. *)
Definition M (A : Type) : Type := Package -> Package * Result A.

Definition ret {A} (a : A) : M A := fun pkg => (pkg, Ok a).

Definition bind {A B} (m : M A) (k : A -> M B) : M B :=
  fun pkg =>
    match m pkg with
    | (pkg', Ok a) => k a pkg'
    | (pkg', Panic r) => (pkg', Panic r)
    end.

Definition lift {A} (r : Result A) : M A := fun pkg => (pkg, r).

Definition getDefaultTracker : M (option LatencyTracker) :=
  fun pkg => (pkg, Ok pkg.(defaultTracker)).

Definition setDefaultTracker (lt : LatencyTracker) : M unit :=
  fun _ => ({| defaultTracker := Some lt |}, Ok tt).

(** Reading through a pointer that may be nil. *)
Definition deref {A} (p : option A) : M A :=
  match p with
  | Some a => ret a
  | None => lift (Panic nilDereference)
  end.

Notation "x <- m ;; k" := (bind m (fun x => k))
  (at level 61, m at next level, right associativity).
Notation "m ;;; k" := (bind m (fun _ => k))
  (at level 61, right associativity).

Definition completedFormat : string :=
  "[Latency] Name=%s, Duration=%v, Status=completed".

Definition logErrorFormat : string :=
  "[Latency] Name=%s, Duration=%v, Status=logError, Error=%v".

Definition Track (now : time.Time) (ctx : context.Context)
  (startTime : time.Time) (name : string) (logger : option LogFunc)
  : M threading.Task :=
  dt <- getDefaultTracker ;;
  (match dt with
   | None => lt <- lift (NewLatencyTracker []) ;; setDefaultTracker lt
   | Some _ => ret tt
   end) ;;;
  dt <- getDefaultTracker ;;
  lt <- deref dt ;;
  let logger :=
    match logger with
    | None => lt.(monitor.logger)
    | Some _ => logger
    end in
  let duration := time.Since now startTime in
  enhance <- deref lt.(contextEnhancer) ;;
  let enhancedCtx := enhance ctx in
  ret (threading.submit
         (fun w =>
            bindO (callLog logger enhancedCtx completedFormat
                     [VString name; VDuration duration] w)
                  (fun _ w' => Returned VNil w'))
         name
         (fun format args => callLog logger enhancedCtx format args)
         (fun r =>
            callLog logger enhancedCtx logErrorFormat
              [VString name; VDuration duration; r])).

(** *** The package as its callers see it

    Code outside the package reaches the package's variable only through
    the exported functions.  [NewLatencyTracker] hands its result to the
    caller and leaves the variable alone. *)
Inductive Call : Type :=
| callNewLatencyTracker (opts : list TrackerOption)
| callTrack (now : time.Time) (ctx : context.Context)
    (startTime : time.Time) (name : string) (logger : option LogFunc).

Definition perform (pkg : Package) (c : Call) : Package :=
  match c with
  | callNewLatencyTracker _ => pkg
  | callTrack now ctx startTime name logger =>
      fst (Track now ctx startTime name logger pkg)
  end.

Definition performAll (cs : list Call) (pkg : Package) : Package :=
  fold_left perform cs pkg.

Definition isTrack (c : Call) : bool :=
  match c with
  | callTrack _ _ _ _ _ => true
  | callNewLatencyTracker _ => false
  end.

End monitor.

(** ** Calls of [Track] that overlap

    Lines 70 to 72 of [Track] read the package variable and, when the read
    gave nil, write it.  Between the two another goroutine can run.  Each
    goroutine below is one call of [Track]; a schedule names the goroutine
    that takes the next step. *)

Module interleaving.

Import monitor.

Inductive PC : Type :=
| atCheck       (* before [if defaultTracker == nil] *)
| atConstruct   (* before [defaultTracker = NewLatencyTracker()] *)
| pastInit.     (* line 73 onwards: the variable is only read *)

Record State : Type :=
  { variable : option LatencyTracker;
    constructions : nat;
    pcs : nat -> PC }.

Definition moveTo (i : nat) (pc : PC) (pcs : nat -> PC) : nat -> PC :=
  fun j => if Nat.eqb j i then pc else pcs j.

Definition step (s : State) (i : nat) : State :=
  match pcs s i with
  | atCheck =>
      match variable s with
      | None =>
          {| variable := variable s;
             constructions := constructions s;
             pcs := moveTo i atConstruct (pcs s) |}
      | Some _ =>
          {| variable := variable s;
             constructions := constructions s;
             pcs := moveTo i pastInit (pcs s) |}
      end
  | atConstruct =>
      match NewLatencyTracker [] with
      | Ok lt =>
          {| variable := Some lt;
             constructions := S (constructions s);
             pcs := moveTo i pastInit (pcs s) |}
      | Panic _ => s
      end
  | pastInit => s
  end.

Definition run (schedule : list nat) (s : State) : State :=
  fold_left step schedule s.

(** No goroutine has entered [Track] yet. *)
Definition start : State :=
  {| variable := None; constructions := 0; pcs := fun _ => atCheck |}.

(** The calls of [order] one after the other, each run to the end of its
    initialisation before the next begins. *)
Definition serial (order : list nat) : list nat :=
  flat_map (fun i => [i; i]) order.

End interleaving.

(** ** Log functions used in the examples *)

(** A log function that keeps what it is called with. *)
Definition recorder : LogFunc :=
  fun ctx format args w => Returned tt (w ++ [Observed ctx format args]).

(** A log function that panics on the completed line and keeps anything
    else. *)
Definition failsOnCompleted : LogFunc :=
  fun ctx format args w =>
    if String.eqb format monitor.completedFormat
    then Panicked (VError "boom") w
    else Returned tt (w ++ [Observed ctx format args]).



(** An instant of the year 2026: January 1, 00:00:00 UTC. *)
Definition newYear2026 : time.Time := time.Unix 1767225600.

(** ** Vocabulary of the statements *)

Import monitor.
Open Scope Z_scope.

(** The tracker [NewLatencyTracker] starts from. *)
Definition defaults : LatencyTracker :=
  {| logger := Some defaultLogger;
     contextEnhancer := Some defaultContextEnhancer |}.

(** Task [t] is a latency report for operation [name] and duration [d]:
    all it ever does is call [lg] with context [ectx].  Its work item sends
    the completed line, its recovery handler the logError line with the
    recovered value appended, its log sink forwards what it is given, and
    its tag is the operation's name. *)
Definition emitsThrough (t : threading.Task) (lg : option LogFunc)
  (ectx : context.Context) (name : string) (d : time.Duration) : Prop :=
  threading.tag t = name /\
  (forall w,
      threading.workItem t w =
      bindO (callLog lg ectx completedFormat [VString name; VDuration d] w)
            (fun _ w' => Returned VNil w')) /\
  (forall format args w,
      threading.logSink t format args w = callLog lg ectx format args w) /\
  (forall r w,
      threading.recoveryHandler t r w =
      callLog lg ectx logErrorFormat [VString name; VDuration d; r] w).

(** Option [opt] leaves [field] of every tracker at [v]. *)
Definition sets {A} (field : LatencyTracker -> A) (opt : TrackerOption)
  (v : A) : Prop :=
  exists f, opt = Some f /\ forall lt, field (f lt) = v.

(** Option [opt] does not touch [field]. *)
Definition keeps {A} (field : LatencyTracker -> A) (opt : TrackerOption)
  : Prop :=
  forall f, opt = Some f -> forall lt, field (f lt) = field lt.

(** Both function fields of the tracker are set. *)
Definition configured (lt : LatencyTracker) : Prop :=
  lt.(logger) <> None /\ lt.(contextEnhancer) <> None.

(** Option [opt] installs no nil function. *)
Definition installsNoNil (opt : TrackerOption) : Prop :=
  forall f, opt = Some f -> forall lt, configured lt -> configured (f lt).

(** A state of the overlapping calls in which no goroutine stands between
    its read and its write: every goroutine is before its read, or past
    the initialisation with the variable set; the variable was written
    once or not at all. *)
Definition settled (s : interleaving.State) : Prop :=
  (forall j,
      interleaving.pcs s j = interleaving.atCheck \/
      (interleaving.pcs s j = interleaving.pastInit /\
       interleaving.variable s = Some defaults)) /\
  ((interleaving.variable s = None /\
    interleaving.constructions s = 0%nat) \/
   (interleaving.variable s = Some defaults /\
    interleaving.constructions s = 1%nat)).

(** The options the package exports, as data: which field is set, and to
    what. *)
Inductive Setting : Type :=
| setLogger (l : option LogFunc)
| setContextEnhancer (e : option ContextEnhancer).

Definition settingOption (s : Setting) : TrackerOption :=
  match s with
  | setLogger l => WithLogger l
  | setContextEnhancer e => WithContextEnhancer e
  end.

Definition isLoggerSetting (s : Setting) : bool :=
  match s with
  | setLogger _ => true
  | setContextEnhancer _ => false
  end.

(** The log function of the last logger setting of the list, the default
    one when the list has none. *)
Definition lastLogger (ss : list Setting) : option LogFunc :=
  match find isLoggerSetting (rev ss) with
  | Some (setLogger l) => l
  | _ => Some defaultLogger
  end.

(** The enhancer of the last enhancer setting of the list, the default one
    when the list has none. *)
Definition lastContextEnhancer (ss : list Setting) : option ContextEnhancer :=
  match find (fun s => negb (isLoggerSetting s)) (rev ss) with
  | Some (setContextEnhancer e) => e
  | _ => Some defaultContextEnhancer
  end.

(** ** Options that panic

    A caller's option is any function on a tracker pointer: besides
    updating the tracker it may panic.  [monitor.TrackerOption] leaves that
    out; here the loop of [NewLatencyTracker] runs over options that
    update or panic. *)

Module panicking.

Definition TrackerOption : Type :=
  option (LatencyTracker -> Result LatencyTracker).

(** [for _, opt := range opts { opt(lt) }] *)
Fixpoint applyOptions (opts : list TrackerOption) (lt : LatencyTracker)
  : Result LatencyTracker :=
  match opts with
  | [] => Ok lt
  | Some opt :: rest =>
      match opt lt with
      | Ok lt' => applyOptions rest lt'
      | Panic r => Panic r
      end
  | None :: _ => Panic nilDereference
  end.

Definition NewLatencyTracker (opts : list TrackerOption)
  : Result LatencyTracker :=
  applyOptions opts
    {| logger := Some defaultLogger;
       contextEnhancer := Some defaultContextEnhancer |}.

(** An option of [monitor] seen as an option that happens not to panic. *)
Definition returning (opt : monitor.TrackerOption) : TrackerOption :=
  match opt with
  | Some f => Some (fun lt => Ok (f lt))
  | None => None
  end.

End panicking.

(** ** Shared lemmas *)

Lemma NewLatencyTracker_nil : NewLatencyTracker [] = Ok defaults.
Proof. reflexivity. Qed.

(** [Track] in closed form: the tracker it works with is the one the
    variable holds, or the defaults when it holds none; the call panics
    exactly when that tracker has no context enhancer. *)
Lemma Track_unfold now ctx startTime name lg pkg :
  Track now ctx startTime name lg pkg =
  let lt :=
    match pkg.(defaultTracker) with
    | Some lt => lt
    | None => defaults
    end in
  ({| defaultTracker := Some lt |},
   match lt.(contextEnhancer) with
   | None => Panic nilDereference
   | Some enhance =>
       let chosen :=
         match lg with
         | None => lt.(logger)
         | Some _ => lg
         end in
       let duration := time.Since now startTime in
       Ok (threading.submit
             (fun w =>
                bindO (callLog chosen (enhance ctx) completedFormat
                         [VString name; VDuration duration] w)
                      (fun _ w' => Returned VNil w'))
             name
             (fun format args => callLog chosen (enhance ctx) format args)
             (fun r =>
                callLog chosen (enhance ctx) logErrorFormat
                  [VString name; VDuration duration; r]))
   end).
Proof.
  destruct pkg as [[lt|]]; cbn.
  - destruct lt as [l [e|]]; reflexivity.
  - reflexivity.
Qed.

Lemma Track_spec now ctx startTime name lg pkg t :
  snd (Track now ctx startTime name lg pkg) = Ok t ->
  exists lt enhance,
    defaultTracker (fst (Track now ctx startTime name lg pkg)) = Some lt /\
    lt = match pkg.(defaultTracker) with Some lt0 => lt0 | None => defaults end /\
    lt.(contextEnhancer) = Some enhance /\
    emitsThrough t
      (match lg with Some f => Some f | None => lt.(logger) end)
      (enhance ctx) name (time.Since now startTime).
Proof.
  rewrite Track_unfold. cbn zeta. cbn [fst snd defaultTracker].
  set (lt := match defaultTracker pkg with Some l => l | None => defaults end).
  destruct (contextEnhancer lt) as [enhance|] eqn:He; [|discriminate].
  intros H. injection H as <-.
  exists lt, enhance.
  split; [reflexivity|]. split; [reflexivity|]. split; [exact He|].
  repeat split; destruct lg; reflexivity.
Qed.

(** Whatever the callers did, the variable is still nil or holds the
    defaults. *)
Lemma perform_defaults pkg c :
  pkg.(defaultTracker) = None \/ pkg.(defaultTracker) = Some defaults ->
  (perform pkg c).(defaultTracker) = None \/
  (perform pkg c).(defaultTracker) = Some defaults.
Proof.
  intros H. destruct c as [opts|now ctx startTime name lg]; cbn [perform].
  - exact H.
  - right. rewrite Track_unfold. cbn.
    destruct H as [-> | ->]; reflexivity.
Qed.

Lemma performAll_defaults cs : forall pkg,
  pkg.(defaultTracker) = None \/ pkg.(defaultTracker) = Some defaults ->
  (performAll cs pkg).(defaultTracker) = None \/
  (performAll cs pkg).(defaultTracker) = Some defaults.
Proof.
  induction cs as [|c cs IH]; intros pkg H; cbn.
  - exact H.
  - apply IH, perform_defaults, H.
Qed.

Lemma reachable_defaults cs :
  (performAll cs initial).(defaultTracker) = None \/
  (performAll cs initial).(defaultTracker) = Some defaults.
Proof. apply performAll_defaults. left. reflexivity. Qed.

(** From a state the callers can reach, [Track] returns, and what it
    submits reports through the logger it was given, or else through the
    default one, with the background context. *)
Lemma Track_reachable cs now ctx startTime name lg :
  exists t,
    Track now ctx startTime name lg (performAll cs initial) =
      ({| defaultTracker := Some defaults |}, Ok t) /\
    emitsThrough t
      (match lg with Some f => Some f | None => Some defaultLogger end)
      context.Background name (time.Since now startTime).
Proof.
  rewrite Track_unfold.
  destruct (reachable_defaults cs) as [-> | ->]; cbn;
    (eexists; split; [reflexivity|]);
    (repeat split; destruct lg; reflexivity).
Qed.

Lemma Since_clamped now t :
  time.Since now t =
  Z.max time.minDuration (Z.min time.maxDuration (now - t)).
Proof.
  unfold time.Since, time.Sub, time.minDuration, time.maxDuration.
  destruct (Z.ltb_spec (now - t) (- 2 ^ 63));
    destruct (Z.ltb_spec (2 ^ 63 - 1) (now - t)); lia.
Qed.

(** The scenario of the specification: an operation that began 150ms ago,
    default tracker, default logger. *)
Example Track_fetchUser :
  exists t,
    snd (Track (newYear2026 + 150 * time.Millisecond) context.Background
           newYear2026 "fetchUser" None initial) = Ok t /\
    threading.tag t = "fetchUser" /\
    threading.runWorker t [] =
      Returned tt
        [Printf (completedFormat ++ newline)%string
           [VString "fetchUser"; VDuration (150 * time.Millisecond)]].
Proof. eexists. repeat split. Qed.

(** With the recording logger, the worker leaves exactly the completed
    line behind. *)
Lemma emitsThrough_recorder t ectx name d w :
  emitsThrough t (Some recorder) ectx name d ->
  threading.runWorker t w =
  Returned tt
    (w ++ [Observed ectx completedFormat [VString name; VDuration d]]).
Proof.
  intros (_ & Hwork & _). unfold threading.runWorker.
  rewrite Hwork. reflexivity.
Qed.

(** ** C1: the duration in the log line *)

(** C1 does not hold as stated.  A caller that passes the zero [Time] in
    2026 gets the largest [Duration] in the log line, which is not
    [now - startTime]: [time.Since] stops at the bounds of [int64]. *)
Lemma Track_zero_start_saturates :
  exists t,
    snd (Track newYear2026 context.Background time.zeroTime "op"
           (Some recorder) initial) = Ok t /\
    threading.runWorker t [] =
      Returned tt
        [Observed context.Background completedFormat
           [VString "op"; VDuration time.maxDuration]] /\
    time.maxDuration <> (newYear2026 - time.zeroTime)%Z.
Proof.
  eexists. split; [reflexivity|]. split; [reflexivity|].
  now vm_compute.
Qed.

(** C1, amended.  For every call of [Track] that submits a task, the
    duration in the completed line and in the logError line is
    [time.Since(startTime)] read at the call: [now - startTime] cut to the
    range of [Duration], hence equal to [now - startTime] whenever that
    fits.  [Track] adds no check and no clamping of its own: a start time
    after [now] gives a negative duration, which is the one in the line. *)
Theorem Track_duration now ctx startTime name lg pkg t :
  snd (Track now ctx startTime name lg pkg) = Ok t ->
  (exists lt enhance,
      defaultTracker (fst (Track now ctx startTime name lg pkg)) = Some lt /\
      lt.(contextEnhancer) = Some enhance /\
      emitsThrough t
        (match lg with Some f => Some f | None => lt.(logger) end)
        (enhance ctx) name (time.Since now startTime)) /\
  time.Since now startTime =
    Z.max time.minDuration (Z.min time.maxDuration (now - startTime)) /\
  ((time.minDuration <= now - startTime <= time.maxDuration)%Z ->
   time.Since now startTime = (now - startTime)%Z) /\
  (time.After startTime now = true -> (time.Since now startTime < 0)%Z).
Proof.
  intros H.
  destruct (Track_spec _ _ _ _ _ _ _ H) as (lt & enhance & Hdt & _ & He & Hemit).
  split; [exists lt, enhance; auto|]. split; [apply Since_clamped|].
  rewrite Since_clamped. unfold time.After, time.minDuration, time.maxDuration.
  split.
  - lia.
  - intros Hlt. apply Z.ltb_lt in Hlt. lia.
Qed.

(** A start time half a microsecond ahead of the clock: the line carries
    [-500]. *)
Lemma Track_duration_future_start :
  exists t,
    snd (Track 1000 context.Background 1500 "op" (Some recorder) initial)
      = Ok t /\
    emitsThrough t (Some recorder) context.Background "op" (-500) /\
    time.Since 1000 1500 = (-500)%Z /\
    (time.Since 1000 1500 < 0)%Z /\
    threading.runWorker t [] =
      Returned tt
        [Observed context.Background completedFormat
           [VString "op"; VDuration (-500)]].
Proof.
  eexists. split; [reflexivity|].
  destruct (Track_duration 1000 context.Background 1500 "op" (Some recorder)
              initial _ eq_refl)
    as ((lt & enhance & Hdt & He & Hemit) & _ & Hfit & Hneg).
  split.
  { injection Hdt as <-. injection He as <-. exact Hemit. }
  split; [apply Hfit; vm_compute; split; discriminate|].
  split; [apply Hneg; reflexivity|].
  reflexivity.
Defined.

(** ** C2: which log function receives the line *)

Lemma Track_chooses now ctx startTime name lg pkg t :
  snd (Track now ctx startTime name lg pkg) = Ok t ->
  exists lt enhance,
    defaultTracker (fst (Track now ctx startTime name lg pkg)) = Some lt /\
    lt = match pkg.(defaultTracker) with Some lt0 => lt0 | None => defaults end /\
    lt.(contextEnhancer) = Some enhance /\
    (forall f, lg = Some f ->
       emitsThrough t (Some f) (enhance ctx) name (time.Since now startTime)) /\
    (lg = None ->
       emitsThrough t lt.(logger) (enhance ctx) name
         (time.Since now startTime)).
Proof.
  intros H.
  destruct (Track_spec _ _ _ _ _ _ _ H) as (lt & enhance & Hdt & Hlt & He & Hemit).
  exists lt, enhance. repeat (split; [assumption|]). split.
  - intros f ->. exact Hemit.
  - intros ->. exact Hemit.
Qed.

(** C2.  After any calls of the exported functions [Track] returns with a
    task and leaves in the package variable the tracker it works with,
    whose log function is the default one; the task reports through the
    [logger] argument when it is not nil and through the tracker's log
    function when the argument is nil.  The same choice is made in every
    state of the package in which [Track] submits a task: the argument
    when it is not nil, whatever the tracker holds, and otherwise the log
    function of the tracker in the variable, which is the one the
    variable held before the call, or the defaults. *)
Theorem Track_logger_choice :
  (forall cs now ctx startTime name lg,
      exists t lt,
        Track now ctx startTime name lg (performAll cs initial) =
          ({| defaultTracker := Some lt |}, Ok t) /\
        lt.(logger) = Some defaultLogger /\
        (forall f, lg = Some f ->
           emitsThrough t (Some f) context.Background name
             (time.Since now startTime)) /\
        (lg = None ->
           emitsThrough t lt.(logger) context.Background name
             (time.Since now startTime))) /\
  (forall now ctx startTime name lg pkg t,
      snd (Track now ctx startTime name lg pkg) = Ok t ->
      exists lt enhance,
        defaultTracker (fst (Track now ctx startTime name lg pkg)) = Some lt /\
        lt = match pkg.(defaultTracker) with
             | Some lt0 => lt0
             | None => defaults
             end /\
        lt.(contextEnhancer) = Some enhance /\
        (forall f, lg = Some f ->
           emitsThrough t (Some f) (enhance ctx) name
             (time.Since now startTime)) /\
        (lg = None ->
           emitsThrough t lt.(logger) (enhance ctx) name
             (time.Since now startTime))).
Proof.
  split; [|intros; apply Track_chooses; assumption].
  intros cs now ctx startTime name lg.
  destruct (Track_reachable cs now ctx startTime name lg) as (t & Ht & Hemit).
  exists t, defaults. split; [exact Ht|]. split; [reflexivity|]. split.
  - intros f ->. exact Hemit.
  - intros ->. exact Hemit.
Qed.

(** The first call of a program, with a nil [logger]: the tracker is
    built and its default log function prints the line.  A tracker that
    holds the recorder: a nil [logger] reaches the recorder.  A tracker
    that holds a logger failing on the completed line: the caller's
    recorder gets the line all the same. *)
Lemma Track_logger_choice_cases :
  (exists t lt,
      Track 1000 context.TODO 400 "op" None initial =
        ({| defaultTracker := Some lt |}, Ok t) /\
      lt.(logger) = Some defaultLogger /\
      emitsThrough t (Some defaultLogger) context.Background "op" 600 /\
      threading.runWorker t [] =
        Returned tt
          [Printf (completedFormat ++ newline)%string
             [VString "op"; VDuration 600]]) /\
  (let pkg :=
     {| defaultTracker :=
          Some {| logger := Some recorder;
                  contextEnhancer := Some defaultContextEnhancer |} |} in
   exists t,
     snd (Track 1000 context.TODO 400 "op" None pkg) = Ok t /\
     emitsThrough t (Some recorder) context.Background "op" 600 /\
     threading.runWorker t [] =
       Returned tt
         [Observed context.Background completedFormat
            [VString "op"; VDuration 600]]) /\
  (let pkg :=
     {| defaultTracker :=
          Some {| logger := Some failsOnCompleted;
                  contextEnhancer := Some defaultContextEnhancer |} |} in
   exists t,
     snd (Track 1000 context.TODO 400 "op" (Some recorder) pkg) = Ok t /\
     emitsThrough t (Some recorder) context.Background "op" 600 /\
     threading.runWorker t [] =
       Returned tt
         [Observed context.Background completedFormat
            [VString "op"; VDuration 600]]).
Proof.
  destruct Track_logger_choice as (Hreach & Hany).
  split; [|split].
  - destruct (Hreach [] 1000 context.TODO 400 "op" None)
      as (t & lt & Ht & Hlog & _ & Hnone).
    exists t, lt. split; [exact Ht|]. split; [exact Hlog|].
    specialize (Hnone eq_refl). rewrite Hlog in Hnone.
    split; [exact Hnone|].
    destruct Hnone as (_ & Hwork & _).
    unfold threading.runWorker. rewrite Hwork. reflexivity.
  - intros pkg. eexists. split; [reflexivity|].
    destruct (Hany 1000 context.TODO 400 "op" None pkg _ eq_refl)
      as (lt & enhance & _ & Hlt & He & _ & Hnone).
    split; [|reflexivity].
    specialize (Hnone eq_refl). rewrite Hlt in Hnone, He.
    injection He as <-. exact Hnone.
  - intros pkg. eexists. split; [reflexivity|].
    destruct (Hany 1000 context.TODO 400 "op" (Some recorder) pkg _ eq_refl)
      as (lt & enhance & _ & Hlt & He & Hsome & _).
    split; [|reflexivity].
    rewrite Hlt in He. injection He as <-. apply (Hsome recorder eq_refl).
Defined.

(** ** C3: the context handed to the logger *)

(** C3 does not hold as stated.  The caller passes the background context;
    the default enhancer returns the background context; the logger is
    called with the very context the caller passed. *)
Lemma Track_background_context_is_callers :
  let ctx := context.Background in
  exists t ectx args,
    snd (Track 1000 ctx 400 "op" (Some recorder) initial) = Ok t /\
    threading.runWorker t [] =
      Returned tt [Observed ectx completedFormat args] /\
    ectx = ctx.
Proof.
  intros ctx. eexists. eexists. eexists.
  split; [reflexivity|]. split; reflexivity.
Qed.

(** C3, amended.  For every call of [Track] that submits a task, the
    context the task hands to the logger is what the tracker's context
    enhancer returns for the caller's context.  The caller's context
    reaches the logger only as that result: after any calls of the
    exported functions the enhancer is the default one, the logger gets
    the background context, and this is the caller's context exactly when
    the caller passed the background context. *)
Theorem Track_context_enhanced now ctx startTime name lg pkg t :
  snd (Track now ctx startTime name lg pkg) = Ok t ->
  exists lt enhance,
    defaultTracker (fst (Track now ctx startTime name lg pkg)) = Some lt /\
    lt.(contextEnhancer) = Some enhance /\
    emitsThrough t
      (match lg with Some f => Some f | None => lt.(logger) end)
      (enhance ctx) name (time.Since now startTime) /\
    (forall cs, pkg = performAll cs initial ->
       enhance ctx = context.Background /\
       (enhance ctx = ctx <-> ctx = context.Background)).
Proof.
  intros H.
  destruct (Track_spec _ _ _ _ _ _ _ H) as (lt & enhance & Hdt & Hlt & He & Hemit).
  exists lt, enhance.
  split; [exact Hdt|]. split; [exact He|]. split; [exact Hemit|].
  intros cs ->.
  assert (lt = defaults) as ->.
  { rewrite Hlt. destruct (reachable_defaults cs) as [-> | ->]; reflexivity. }
  injection He as <-. unfold defaultContextEnhancer.
  split; [reflexivity|]. split; congruence.
Qed.

(** The caller passes a context with a trace identifier; the logger gets
    the background context, not the caller's. *)
Lemma Track_context_enhanced_traced :
  let ctx := context.WithValue context.Background "traceID" "7f3a" in
  exists t,
    snd (Track 1000 ctx 400 "op" (Some recorder) initial) = Ok t /\
    emitsThrough t (Some recorder) context.Background "op" 600 /\
    threading.runWorker t [] =
      Returned tt
        [Observed context.Background completedFormat
           [VString "op"; VDuration 600]] /\
    context.Background <> ctx.
Proof.
  intros ctx. eexists. split; [reflexivity|].
  destruct (Track_context_enhanced 1000 ctx 400 "op" (Some recorder)
              initial _ eq_refl)
    as (lt & enhance & _ & _ & Hemit & Hdefault).
  destruct (Hdefault [] eq_refl) as (Hbg & _).
  split; [rewrite <- Hbg; exact Hemit|].
  split; [reflexivity|discriminate].
Defined.

(** ** C4: the default context enhancer *)

(** C4.  The default context enhancer returns the background context for
    every context it is given, so its result does not depend on its
    argument; it is the enhancer a tracker built without options holds. *)
Theorem defaultContextEnhancer_background :
  (forall ctx, defaultContextEnhancer ctx = context.Background) /\
  (forall ctx ctx', defaultContextEnhancer ctx = defaultContextEnhancer ctx') /\
  (exists lt,
      NewLatencyTracker [] = Ok lt /\
      lt.(contextEnhancer) = Some defaultContextEnhancer).
Proof.
  split; [reflexivity|]. split; [reflexivity|].
  exists defaults. split; reflexivity.
Qed.

(** ** C5 and C6: construction *)

Lemma applyOptions_app opts1 : forall opts2 lt,
  applyOptions (opts1 ++ opts2) lt =
  match applyOptions opts1 lt with
  | Ok lt' => applyOptions opts2 lt'
  | Panic r => Panic r
  end.
Proof.
  induction opts1 as [|[f|] opts1 IH]; intros opts2 lt; cbn.
  - reflexivity.
  - apply IH.
  - reflexivity.
Qed.

Lemma applyOptions_map_Some fs : forall lt,
  applyOptions (map Some fs) lt = Ok (fold_left (fun l f => f l) fs lt).
Proof.
  induction fs as [|f fs IH]; intros lt; cbn; [reflexivity|apply IH].
Qed.

Lemma applyOptions_keeps {A} (field : LatencyTracker -> A) opts :
  Forall (keeps field) opts ->
  forall lt lt', applyOptions opts lt = Ok lt' -> field lt' = field lt.
Proof.
  induction 1 as [|[f|] opts Hk _ IH]; intros lt lt' H; cbn in H.
  - injection H as <-. reflexivity.
  - rewrite (IH _ _ H). apply Hk. reflexivity.
  - discriminate.
Qed.

Lemma applyOptions_configured opts :
  Forall installsNoNil opts ->
  forall lt lt', configured lt -> applyOptions opts lt = Ok lt' ->
                 configured lt'.
Proof.
  induction 1 as [|[f|] opts Hk _ IH]; intros lt lt' Hc H; cbn in H.
  - injection H as <-. exact Hc.
  - apply (IH _ _ (Hk f eq_refl lt Hc) H).
  - discriminate.
Qed.

(** C5.  [NewLatencyTracker] applies its options to the defaulted tracker
    from left to right: building with [opts1 ++ opts2] is building with
    [opts1] and then applying [opts2], and a list without nil options
    gives the left fold of the options over the defaults.  So a later
    option wins: whatever was applied earlier, the option that sets a field
    to [v], followed only by options that leave the field alone, leaves [v]
    in the returned tracker.  [WithLogger] sets the log function and
    leaves the enhancer alone; [WithContextEnhancer] the other way
    round. *)
Theorem NewLatencyTracker_later_option_wins :
  (forall opts1 opts2,
      NewLatencyTracker (opts1 ++ opts2) =
      match NewLatencyTracker opts1 with
      | Ok lt => applyOptions opts2 lt
      | Panic r => Panic r
      end) /\
  (forall fs,
      NewLatencyTracker (map Some fs) =
      Ok (fold_left (fun lt f => f lt) fs defaults)) /\
  (forall A (field : LatencyTracker -> A) earlier later post v lt,
      sets field later v ->
      Forall (keeps field) post ->
      NewLatencyTracker (earlier ++ later :: post) = Ok lt ->
      field lt = v) /\
  (forall l, sets logger (WithLogger l) l /\
             keeps contextEnhancer (WithLogger l)) /\
  (forall e, sets contextEnhancer (WithContextEnhancer e) e /\
             keeps logger (WithContextEnhancer e)).
Proof.
  split; [intros; apply applyOptions_app|].
  split; [intros; apply applyOptions_map_Some|].
  split.
  - intros A field earlier later post v lt (f & -> & Hset) Hkeep H.
    unfold NewLatencyTracker in H. rewrite applyOptions_app in H.
    destruct (applyOptions earlier _) as [lt0|r]; [|discriminate].
    cbn in H. rewrite (applyOptions_keeps field post Hkeep _ _ H).
    apply Hset.
  - split; intros x; split.
    + eexists. split; reflexivity.
    + intros f [= <-] lt. reflexivity.
    + eexists. split; reflexivity.
    + intros f [= <-] lt. reflexivity.
Qed.

(** Two loggers in a row, then an enhancer: the tracker holds the second
    logger. *)
Lemma NewLatencyTracker_second_logger :
  exists lt,
    NewLatencyTracker
      [WithLogger (Some recorder); WithLogger (Some failsOnCompleted);
       WithContextEnhancer (Some (fun ctx => ctx))] = Ok lt /\
    lt.(logger) = Some failsOnCompleted.
Proof.
  eexists. split; [reflexivity|].
  destruct NewLatencyTracker_later_option_wins
    as (_ & _ & Hlast & Hlog & Henh).
  apply (Hlast _ logger [WithLogger (Some recorder)]
           (WithLogger (Some failsOnCompleted))
           [WithContextEnhancer (Some (fun ctx => ctx))]).
  - apply Hlog.
  - constructor; [apply Henh|constructor].
  - reflexivity.
Defined.

(** C6 does not hold as stated.  [WithLogger(nil)] is an option, and the
    tracker built with it has no log function. *)
Lemma NewLatencyTracker_WithLogger_nil :
  exists lt,
    NewLatencyTracker [WithLogger None] = Ok lt /\ lt.(logger) = None.
Proof. eexists. split; reflexivity. Qed.

(** C6, amended.  The tracker [NewLatencyTracker] starts from has both
    functions, so the tracker it returns has both whenever no option
    installs nil: in particular without options, and with [WithLogger] and
    [WithContextEnhancer] given functions that are not nil. *)
Theorem NewLatencyTracker_configured :
  (forall opts lt,
      Forall installsNoNil opts ->
      NewLatencyTracker opts = Ok lt ->
      lt.(logger) <> None /\ lt.(contextEnhancer) <> None) /\
  (exists lt, NewLatencyTracker [] = Ok lt /\
              lt.(logger) = Some defaultLogger /\
              lt.(contextEnhancer) = Some defaultContextEnhancer) /\
  (forall f, installsNoNil (WithLogger (Some f))) /\
  (forall e, installsNoNil (WithContextEnhancer (Some e))).
Proof.
  split.
  - intros opts lt Hall H.
    apply (applyOptions_configured opts Hall defaults lt); [|exact H].
    split; discriminate.
  - split; [exists defaults; repeat split|].
    split; intros x g [= <-] lt [Hl He]; split; cbn; congruence.
Qed.

(** A logger and an enhancer, neither nil. *)
Lemma NewLatencyTracker_configured_both :
  exists lt,
    NewLatencyTracker
      [WithLogger (Some recorder);
       WithContextEnhancer (Some (fun ctx => ctx))] = Ok lt /\
    lt.(logger) <> None /\ lt.(contextEnhancer) <> None.
Proof.
  eexists. split; [reflexivity|].
  destruct NewLatencyTracker_configured as (Hall & _ & Hlog & Henh).
  apply (Hall [WithLogger (Some recorder);
               WithContextEnhancer (Some (fun ctx => ctx))]).
  - constructor; [apply Hlog|]. constructor; [apply Henh|constructor].
  - reflexivity.
Defined.

(** ** C7: a work item that panics *)





(** ** C8: a tracker without a log function *)

(** C8 does not hold as stated.  With a tracker whose log function is nil
    in the package variable, [Track] with a nil [logger] does not turn to
    the default log function: the work item calls nil and panics, and so
    does the recovery handler; nothing is printed. *)
Lemma Track_nil_configured_logger :
  let pkg :=
    {| defaultTracker :=
         Some {| logger := None;
                 contextEnhancer := Some defaultContextEnhancer |} |} in
  exists t,
    snd (Track 1000 context.Background 400 "op" None pkg) = Ok t /\
    threading.workItem t [] = Panicked nilDereference [] /\
    threading.runWorker t [] = Panicked nilDereference [] /\
    threading.runWorker t [] <>
      callLog (Some defaultLogger) context.Background completedFormat
        [VString "op"; VDuration 600] [].
Proof.
  intros pkg. eexists. split; [reflexivity|].
  split; [reflexivity|]. split; [reflexivity|]. discriminate.
Qed.

(** C8, amended.  [Track] has no fallback of its own: given a nil
    [logger] it reports through whatever log function the tracker in the
    package variable holds.  The call of a nil function is out of reach of
    the exported functions all the same: after any calls of them the
    tracker holds the default log function, so [Track] with a nil [logger]
    returns and its worker prints the completed line and returns. *)
Theorem Track_nil_logger_uses_configured :
  (forall now ctx startTime name pkg t,
      snd (Track now ctx startTime name None pkg) = Ok t ->
      exists lt enhance,
        defaultTracker (fst (Track now ctx startTime name None pkg))
          = Some lt /\
        lt.(contextEnhancer) = Some enhance /\
        emitsThrough t lt.(logger) (enhance ctx) name
          (time.Since now startTime)) /\
  (forall cs now ctx startTime name,
      exists t,
        snd (Track now ctx startTime name None (performAll cs initial))
          = Ok t /\
        emitsThrough t (Some defaultLogger) context.Background name
          (time.Since now startTime) /\
        forall w,
          threading.runWorker t w =
          Returned tt
            (w ++ [Printf (completedFormat ++ newline)%string
                     [VString name; VDuration (time.Since now startTime)]])).
Proof.
  split.
  - intros now ctx startTime name pkg t H.
    destruct (Track_spec _ _ _ _ _ _ _ H)
      as (lt & enhance & Hdt & _ & He & Hemit).
    exists lt, enhance. repeat split; try assumption; apply Hemit.
  - intros cs now ctx startTime name.
    destruct (Track_reachable cs now ctx startTime name None)
      as (t & -> & Hemit).
    exists t. split; [reflexivity|]. split; [exact Hemit|].
    intros w. destruct Hemit as (_ & Hwork & _).
    unfold threading.runWorker. rewrite Hwork. reflexivity.
Qed.

(** The first call of the program, with a nil [logger]: the default log
    function prints the line. *)
Lemma Track_nil_logger_first_call :
  exists t,
    snd (Track 1000 context.Background 400 "op" None initial) = Ok t /\
    (exists lt enhance,
        lt.(contextEnhancer) = Some enhance /\
        emitsThrough t lt.(logger) (enhance context.Background) "op" 600) /\
    threading.runWorker t [] =
      Returned tt
        [Printf (completedFormat ++ newline)%string
           [VString "op"; VDuration 600]].
Proof.
  eexists. split; [reflexivity|].
  destruct Track_nil_logger_uses_configured as (Hany & _).
  destruct (Hany 1000 context.Background 400 "op" initial _ eq_refl)
    as (lt & enhance & _ & He & Hemit).
  split; [exists lt, enhance; split; assumption|reflexivity].
Defined.

(** ** C10: [Track] and the trackers built by callers *)

(** C10.  After any calls of the exported functions, with any options
    given to [NewLatencyTracker], the package variable is nil or holds the
    defaults, and a call of [NewLatencyTracker] leaves it as it is.  So
    [Track] leaves the defaults in the variable, returns, and reports
    through the [logger] argument, or the default log function when that
    is nil, with the background context: what it submits is what it
    submits in a program that never called anything before. *)
Theorem Track_ignores_construction_options cs now ctx startTime name lg :
  let pkg := performAll cs initial in
  (pkg.(defaultTracker) = None \/ pkg.(defaultTracker) = Some defaults) /\
  (forall opts, perform pkg (callNewLatencyTracker opts) = pkg) /\
  (exists t,
      Track now ctx startTime name lg pkg =
        ({| defaultTracker := Some defaults |}, Ok t) /\
      emitsThrough t
        (match lg with Some f => Some f | None => Some defaultLogger end)
        context.Background name (time.Since now startTime)) /\
  snd (Track now ctx startTime name lg pkg) =
  snd (Track now ctx startTime name lg initial).
Proof.
  cbn zeta. split; [apply reachable_defaults|].
  split; [reflexivity|]. split; [apply Track_reachable|].
  rewrite !Track_unfold.
  destruct (reachable_defaults cs) as [-> | ->]; reflexivity.
Qed.

(** ** C9: the life of the default tracker *)

Lemma performAll_app cs : forall cs' pkg,
  performAll (cs ++ cs') pkg = performAll cs' (performAll cs pkg).
Proof. intros. apply fold_left_app. Qed.

Lemma Track_defaultTracker now ctx startTime name lg pkg :
  defaultTracker (fst (Track now ctx startTime name lg pkg)) =
  Some (match pkg.(defaultTracker) with Some lt => lt | None => defaults end).
Proof. rewrite Track_unfold. reflexivity. Qed.

Lemma perform_keeps pkg c lt :
  pkg.(defaultTracker) = Some lt ->
  (perform pkg c).(defaultTracker) = Some lt.
Proof.
  intros H. destruct c; cbn [perform]; [exact H|].
  rewrite Track_defaultTracker, H. reflexivity.
Qed.

Lemma performAll_keeps cs : forall pkg lt,
  pkg.(defaultTracker) = Some lt ->
  (performAll cs pkg).(defaultTracker) = Some lt.
Proof.
  induction cs as [|c cs IH]; intros pkg lt H; cbn; [exact H|].
  apply IH, perform_keeps, H.
Qed.

Lemma performAll_no_Track cs : forall pkg,
  forallb (fun c => negb (isTrack c)) cs = true ->
  performAll cs pkg = pkg.
Proof.
  induction cs as [|c cs IH]; intros pkg H; cbn in *; [reflexivity|].
  apply andb_true_iff in H as [Hc Hcs].
  destruct c; [|discriminate]. cbn. apply IH, Hcs.
Qed.

Section Interleaving.

Import interleaving.

Lemma moveTo_same i pc f : moveTo i pc f i = pc.
Proof. unfold moveTo. rewrite Nat.eqb_refl. reflexivity. Qed.

(** One call running alone from before its read: two steps, after which
    the variable holds what it held, or the defaults. *)
Lemma alone_variable s i :
  pcs s i = atCheck ->
  variable (run [i; i] s) =
  Some (match variable s with Some lt => lt | None => defaults end).
Proof.
  intros Hpc. cbn [run fold_left]. unfold step at 2. rewrite Hpc.
  destruct (variable s) as [lt|] eqn:Hv; unfold step; cbn [pcs variable];
    rewrite moveTo_same; cbn; try rewrite Hv; reflexivity.
Qed.

Lemma alone_settled s i : settled s -> settled (run [i; i] s).
Proof.
  intros [Hpcs Hvar]. cbn [run fold_left].
  destruct (Hpcs i) as [Hpc | [Hpc Hset]].
  - unfold step at 2. rewrite Hpc.
    destruct Hvar as [[Hv Hc] | [Hv Hc]]; rewrite Hv;
      unfold step; cbn [pcs variable constructions];
      rewrite moveTo_same; unfold moveTo, settled; cbn.
    + split.
      * intros j. destruct (Nat.eqb j i); [right; split; reflexivity|].
        destruct (Hpcs j) as [Hj | [Hj Hs]]; [left; exact Hj|congruence].
      * right. rewrite Hc. split; reflexivity.
    + split.
      * intros j. destruct (Nat.eqb j i); [right; split; reflexivity|].
        destruct (Hpcs j) as [Hj | [Hj _]]; [left|right; split]; auto.
      * right. split; [reflexivity|exact Hc].
  - assert (step s i = s) as ->
        by (unfold step; rewrite Hpc; reflexivity).
    assert (step s i = s) as ->
        by (unfold step; rewrite Hpc; reflexivity).
    split; assumption.
Qed.

Lemma step_keeps_defaults s i :
  variable s = Some defaults -> variable (step s i) = Some defaults.
Proof.
  intros Hv. unfold step.
  destruct (pcs s i); [rewrite Hv| |]; cbn; auto.
Qed.

Lemma run_keeps_defaults schedule : forall s,
  variable s = Some defaults -> variable (run schedule s) = Some defaults.
Proof.
  induction schedule as [|i schedule IH]; intros s Hv; cbn; [exact Hv|].
  apply IH, step_keeps_defaults, Hv.
Qed.

Lemma run_defaults schedule : forall s,
  variable s = None \/ variable s = Some defaults ->
  variable (run schedule s) = None \/ variable (run schedule s) = Some defaults.
Proof.
  induction schedule as [|i schedule IH]; intros s Hv; cbn; [exact Hv|].
  apply IH. destruct Hv as [Hv | Hv].
  - unfold step. destruct (pcs s i); [rewrite Hv| |]; cbn; auto.
  - right. apply step_keeps_defaults, Hv.
Qed.

Lemma alone_sets s i :
  settled s -> variable (run [i; i] s) = Some defaults.
Proof.
  intros [Hpcs Hvar]. destruct (Hpcs i) as [Hpc | [Hpc Hset]].
  - rewrite (alone_variable s i Hpc).
    destruct Hvar as [[-> _] | [-> _]]; reflexivity.
  - apply run_keeps_defaults, Hset.
Qed.

Lemma serial_settled order : forall s,
  settled s -> settled (run (serial order) s).
Proof.
  induction order as [|i order IH]; intros s Hs; [exact Hs|].
  apply (IH (run [i; i] s)), alone_settled, Hs.
Qed.

Lemma serial_sets order : forall s,
  settled s -> order <> [] ->
  variable (run (serial order) s) = Some defaults.
Proof.
  destruct order as [|i order]; intros s Hs Hne; [congruence|].
  apply (run_keeps_defaults (serial order) (run [i; i] s)), alone_sets, Hs.
Qed.

Lemma start_settled : settled start.
Proof. split; [intros j; left; reflexivity|left; split; reflexivity]. Qed.

End Interleaving.

(** C9 does not hold as stated.  Two first calls of [Track] overlap: both
    read nil before either writes.  After three steps the variable is set
    and one tracker has been built; the fourth step builds another and
    stores it over the first. *)
Lemma overlapping_first_calls_construct_twice :
  let s3 := interleaving.run [0; 1; 0]%nat interleaving.start in
  let s4 := interleaving.run [0; 1; 0; 1]%nat interleaving.start in
  interleaving.variable s3 = Some defaults /\
  interleaving.constructions s3 = 1%nat /\
  interleaving.pcs s3 1%nat = interleaving.atConstruct /\
  interleaving.constructions s4 = 2%nat.
Proof. repeat split. Qed.

(** C9, amended.  The default tracker is created lazily: calls that are
    not calls of [Track] leave the variable nil.  A call of [Track] leaves
    in the variable the tracker it found there, or the defaults when it
    found none, so from the first call of [Track] on the variable holds
    the defaults and is never reset.  Nothing guards the construction
    against overlapping calls; it is performed at most once when the calls
    of [Track] run one after the other, and exactly once when there is at
    least one call.  A call that runs alone in the interleaving model
    leaves the variable as [Track] does, and under every schedule the
    variable is nil or holds the defaults. *)
Theorem defaultTracker_created_once_in_sequence :
  (forall cs,
      forallb (fun c => negb (isTrack c)) cs = true ->
      (performAll cs initial).(defaultTracker) = None) /\
  (forall now ctx startTime name lg pkg,
      defaultTracker (fst (Track now ctx startTime name lg pkg)) =
      Some (match pkg.(defaultTracker) with
            | Some lt => lt
            | None => defaults
            end)) /\
  (forall cs now ctx startTime name lg cs',
      (performAll (cs ++ callTrack now ctx startTime name lg :: cs')
         initial).(defaultTracker) = Some defaults) /\
  (forall s i now ctx startTime name lg,
      interleaving.pcs s i = interleaving.atCheck ->
      interleaving.variable (interleaving.run [i; i] s) =
      defaultTracker
        (fst (Track now ctx startTime name lg
                {| defaultTracker := interleaving.variable s |}))) /\
  (forall schedule,
      let s := interleaving.run schedule interleaving.start in
      interleaving.variable s = None \/
      interleaving.variable s = Some defaults) /\
  (forall order,
      (interleaving.constructions
         (interleaving.run (interleaving.serial order) interleaving.start)
       <= 1)%nat /\
      (order <> [] ->
       interleaving.constructions
         (interleaving.run (interleaving.serial order) interleaving.start)
       = 1%nat)).
Proof.
  split.
  { intros cs H. rewrite (performAll_no_Track cs initial H). reflexivity. }
  split; [intros; apply Track_defaultTracker|].
  split.
  { intros cs now ctx startTime name lg cs'.
    rewrite performAll_app. cbn [performAll fold_left].
    apply performAll_keeps. cbn [perform].
    rewrite Track_defaultTracker.
    destruct (reachable_defaults cs) as [H | H]; rewrite H; reflexivity. }
  split.
  { intros s i now ctx startTime name lg Hpc.
    rewrite Track_defaultTracker. apply alone_variable, Hpc. }
  split.
  { intros schedule. apply run_defaults. left. reflexivity. }
  intros order.
  pose proof (serial_settled order _ start_settled) as Hs.
  split.
  - destruct Hs as [_ [[_ ->] | [_ ->]]]; auto.
  - intros Hne.
    pose proof (serial_sets order _ start_settled Hne) as Hv.
    destruct Hs as [_ [[Hn _] | [_ Hc]]]; [congruence|exact Hc].
Qed.

(** A caller builds a tracker without a log function, then three calls of
    [Track] run one after the other: the variable stays nil until the
    first of them and the tracker is built once. *)
Lemma defaultTracker_created_once_three_calls :
  (performAll [callNewLatencyTracker [WithLogger None]] initial)
    .(defaultTracker) = None /\
  interleaving.variable (interleaving.run [0; 0]%nat interleaving.start) =
    Some defaults /\
  interleaving.constructions
    (interleaving.run (interleaving.serial [0; 1; 2]%nat) interleaving.start)
  = 1%nat.
Proof.
  destruct defaultTracker_created_once_in_sequence
    as (Hlazy & _ & _ & Halone & _ & Honce).
  split; [apply Hlazy; reflexivity|].
  split.
  - rewrite (Halone interleaving.start 0%nat 0 context.Background 0 "op"
               None eq_refl).
    reflexivity.
  - apply (Honce [0; 1; 2]%nat). discriminate.
Defined.


(** ** Further properties of the package *)

(** *** Construction *)

(** X2.  The two exported options act on different fields, so next to each
    other they can be swapped; and an option that is followed at once by
    another one for the same field has no effect.  Both hold anywhere in
    the list, whatever stands before and after, nil options included. *)
Theorem NewLatencyTracker_options_commute_absorb :
  (forall pre post l e,
      NewLatencyTracker
        (pre ++ WithLogger l :: WithContextEnhancer e :: post) =
      NewLatencyTracker
        (pre ++ WithContextEnhancer e :: WithLogger l :: post)) /\
  (forall pre post l l',
      NewLatencyTracker (pre ++ WithLogger l :: WithLogger l' :: post) =
      NewLatencyTracker (pre ++ WithLogger l' :: post)) /\
  (forall pre post e e',
      NewLatencyTracker
        (pre ++ WithContextEnhancer e :: WithContextEnhancer e' :: post) =
      NewLatencyTracker (pre ++ WithContextEnhancer e' :: post)).
Proof.
  repeat split; intros; unfold NewLatencyTracker;
    rewrite !applyOptions_app;
    destruct (applyOptions pre _) as [lt|r]; reflexivity.
Qed.

(** X3.  Given only options made by [WithLogger] and [WithContextEnhancer],
    [NewLatencyTracker] always returns, and the tracker holds for each
    field the argument of the last option for that field, or the default
    when there is none. *)
Theorem NewLatencyTracker_exported_options ss :
  NewLatencyTracker (map settingOption ss) =
  Ok {| logger := lastLogger ss;
        contextEnhancer := lastContextEnhancer ss |}.
Proof.
  induction ss as [|s ss IH] using rev_ind; [reflexivity|].
  unfold NewLatencyTracker in *. rewrite map_app, applyOptions_app, IH.
  unfold lastLogger, lastContextEnhancer. rewrite rev_app_distr.
  destruct s; reflexivity.
Qed.

Lemma applyOptions_nil_option opts : forall lt,
  (In None opts -> applyOptions opts lt = Panic nilDereference) /\
  (~ In None opts -> exists lt', applyOptions opts lt = Ok lt').
Proof.
  induction opts as [|[f|] opts IH]; intros lt; cbn.
  - split; [contradiction|]. intros _. exists lt. reflexivity.
  - destruct (IH (f lt)) as [Hp Hok]. split.
    + intros [H | H]; [discriminate|auto].
    + intros H. apply Hok. intros Hin. apply H. right. exact Hin.
  - split; [reflexivity|]. intros H. exfalso. apply H. left. reflexivity.
Qed.

Lemma panicking_applyOptions_app opts1 : forall opts2 lt,
  panicking.applyOptions (opts1 ++ opts2) lt =
  match panicking.applyOptions opts1 lt with
  | Ok lt' => panicking.applyOptions opts2 lt'
  | Panic r => Panic r
  end.
Proof.
  induction opts1 as [|[f|] opts1 IH]; intros opts2 lt; cbn;
    try reflexivity.
  destruct (f lt); [apply IH|reflexivity].
Qed.

Lemma panicking_returning opts : forall lt,
  panicking.applyOptions (map panicking.returning opts) lt =
  applyOptions opts lt.
Proof.
  induction opts as [|[f|] opts IH]; intros lt; cbn;
    [reflexivity|apply IH|reflexivity].
Qed.

(** X4.  [NewLatencyTracker] stops at the first option that does not
    return: a nil option panics with the nil-dereference error, an option
    that panics with [r] makes the call panic with [r], and once the call
    has panicked the options that follow change nothing.  Options that
    cannot panic are a special case, with the same result as in
    [monitor]: the call returns a tracker exactly when none of them is
    nil. *)
Theorem NewLatencyTracker_first_failing_option :
  (forall pre post lt,
      panicking.NewLatencyTracker pre = Ok lt ->
      panicking.NewLatencyTracker (pre ++ None :: post) =
      Panic nilDereference) /\
  (forall pre f post lt r,
      panicking.NewLatencyTracker pre = Ok lt ->
      f lt = Panic r ->
      panicking.NewLatencyTracker (pre ++ Some f :: post) = Panic r) /\
  (forall pre post r,
      panicking.NewLatencyTracker pre = Panic r ->
      panicking.NewLatencyTracker (pre ++ post) = Panic r) /\
  (forall opts,
      panicking.NewLatencyTracker (map panicking.returning opts) =
      NewLatencyTracker opts) /\
  (forall opts,
      (In None opts ->
       panicking.NewLatencyTracker (map panicking.returning opts) =
       Panic nilDereference) /\
      (~ In None opts ->
       exists lt,
         panicking.NewLatencyTracker (map panicking.returning opts) =
         Ok lt)).
Proof.
  unfold panicking.NewLatencyTracker.
  split; [|split; [|split; [|split]]].
  - intros pre post lt H. rewrite panicking_applyOptions_app, H. reflexivity.
  - intros pre f post lt r H Hf.
    rewrite panicking_applyOptions_app, H. cbn. rewrite Hf. reflexivity.
  - intros pre post r H. rewrite panicking_applyOptions_app, H. reflexivity.
  - intros opts. apply panicking_returning.
  - intros opts. rewrite panicking_returning. apply applyOptions_nil_option.
Qed.

(** An option that panics with ["x"], then a nil one: the call panics with
    ["x"].  A nil option after one that returns: the nil-dereference
    error. *)
Lemma NewLatencyTracker_first_failing_option_x :
  panicking.NewLatencyTracker
    [panicking.returning (WithLogger (Some recorder));
     Some (fun _ => Panic (VString "x")); None]
  = Panic (VString "x") /\
  panicking.NewLatencyTracker
    [panicking.returning (WithLogger (Some recorder)); None;
     Some (fun _ => Panic (VString "x"))]
  = Panic nilDereference.
Proof.
  destruct NewLatencyTracker_first_failing_option as (Hnil & Hpanic & _).
  split.
  - apply (Hpanic [panicking.returning (WithLogger (Some recorder))]
             (fun _ => Panic (VString "x")) [None]
             {| logger := Some recorder;
                contextEnhancer := Some defaultContextEnhancer |});
      reflexivity.
  - apply (Hnil [panicking.returning (WithLogger (Some recorder))]
             [Some (fun _ => Panic (VString "x"))]
             {| logger := Some recorder;
                contextEnhancer := Some defaultContextEnhancer |});
      reflexivity.
Defined.

(** *** [Track] on the caller's goroutine *)

(** X1.  After any calls of the exported functions, the context given to
    [Track] has no effect at all: two calls that differ only in their
    context leave the same state and submit the same task. *)
Theorem Track_context_argument_unused cs now ctx ctx' startTime name lg :
  Track now ctx startTime name lg (performAll cs initial) =
  Track now ctx' startTime name lg (performAll cs initial).
Proof.
  rewrite !Track_unfold.
  destruct (reachable_defaults cs) as [-> | ->]; reflexivity.
Qed.

(** X5.  When the package variable holds a tracker without a context
    enhancer, [Track] panics on the caller's goroutine with the
    nil-dereference error, whatever its arguments and whatever log
    function the tracker holds: nothing is submitted and the variable is
    left as it was. *)
Theorem Track_nil_enhancer_panics now ctx startTime name lg pkg lt :
  pkg.(defaultTracker) = Some lt ->
  lt.(contextEnhancer) = None ->
  Track now ctx startTime name lg pkg = (pkg, Panic nilDereference).
Proof.
  intros Hpkg He. rewrite Track_unfold, Hpkg. cbn zeta. rewrite He.
  destruct pkg as [dt]. cbn in Hpkg. rewrite Hpkg. reflexivity.
Qed.

(** A tracker with a logger and no enhancer in the variable, and a caller
    that brings a logger of its own. *)
Lemma Track_nil_enhancer_panics_with_loggers :
  let pkg :=
    {| defaultTracker :=
         Some {| logger := Some recorder; contextEnhancer := None |} |} in
  Track 1000 context.Background 400 "op" (Some recorder) pkg =
    (pkg, Panic nilDereference).
Proof.
  intros pkg.
  apply (Track_nil_enhancer_panics 1000 context.Background 400 "op"
           (Some recorder) pkg
           {| logger := Some recorder; contextEnhancer := None |});
    reflexivity.
Defined.

(** X6.  Nothing in the closures [Track] submits checks the log function.
    When the logger argument is nil and the tracker in the variable has no
    log function, the work item, the log sink and the recovery handler
    each panic with the nil-dereference error and leave the world as they
    found it. *)
Theorem Track_nil_logger_closures_panic now ctx startTime name pkg lt t :
  pkg.(defaultTracker) = Some lt ->
  lt.(logger) = None ->
  snd (Track now ctx startTime name None pkg) = Ok t ->
  forall w,
    threading.workItem t w = Panicked nilDereference w /\
    (forall format args,
        threading.logSink t format args w = Panicked nilDereference w) /\
    (forall r, threading.recoveryHandler t r w = Panicked nilDereference w).
Proof.
  intros Hpkg Hlog H w.
  destruct (Track_spec _ _ _ _ _ _ _ H)
    as (lt' & enhance & _ & Hlt & _ & _ & Hwork & Hsink & Hrec).
  rewrite Hpkg in Hlt. subst lt'. rewrite Hlog in *.
  split; [rewrite Hwork; reflexivity|].
  split; [intros; rewrite Hsink; reflexivity|].
  intros r. rewrite Hrec. reflexivity.
Qed.

(** A tracker without a log function in the variable, some output already
    in the world. *)
Lemma Track_nil_logger_closures_panic_after_output :
  let pkg :=
    {| defaultTracker :=
         Some {| logger := None;
                 contextEnhancer := Some defaultContextEnhancer |} |} in
  let w := [Printf "earlier" []] in
  exists t,
    snd (Track 1000 context.Background 400 "op" None pkg) = Ok t /\
    threading.workItem t w = Panicked nilDereference w /\
    threading.recoveryHandler t (VString "r") w = Panicked nilDereference w.
Proof.
  intros pkg w. eexists. split; [reflexivity|].
  destruct (Track_nil_logger_closures_panic 1000 context.Background 400 "op"
              pkg _ _ eq_refl eq_refl eq_refl w) as (Hwork & _ & Hrec).
  split; [exact Hwork|apply Hrec].
Defined.

(** *** The recorded duration *)

Lemma Since_shift now t k : time.Since (now + k) (t + k) = time.Since now t.
Proof.
  unfold time.Since, time.Sub.
  replace (now + k - (t + k)) with (now - t) by lia. reflexivity.
Qed.

(** X7.  [Track] reads the clock and the start time only through their
    difference: moving both by the same amount changes nothing in what it
    does.  The duration it records always fits [int64]; it is negative,
    zero or positive as [now - startTime] is; and of two calls with the
    same start time the later one records no shorter duration. *)
Theorem Track_duration_shift_range_sign :
  (forall now ctx startTime name lg pkg k,
      Track (now + k) ctx (startTime + k) name lg pkg =
      Track now ctx startTime name lg pkg) /\
  (forall now startTime,
      time.minDuration <= time.Since now startTime <= time.maxDuration /\
      Z.sgn (time.Since now startTime) = Z.sgn (now - startTime)) /\
  (forall now now' startTime,
      now <= now' ->
      time.Since now startTime <= time.Since now' startTime).
Proof.
  split.
  { intros. rewrite !Track_unfold, Since_shift. reflexivity. }
  split.
  - intros now startTime. rewrite Since_clamped.
    unfold time.minDuration, time.maxDuration. split; [lia|].
    destruct (Z.lt_trichotomy (now - startTime) 0) as [H | [H | H]].
    + rewrite !Z.sgn_neg; lia.
    + rewrite H. reflexivity.
    + rewrite !Z.sgn_pos; lia.
  - intros now now' startTime H. rewrite !Since_clamped. lia.
Qed.

(** Two readings of the clock a millisecond apart, the start a second
    before the first. *)
Lemma Track_duration_later_reading :
  time.Since newYear2026 (newYear2026 - time.Second) <=
  time.Since (newYear2026 + time.Millisecond) (newYear2026 - time.Second).
Proof.
  destruct Track_duration_shift_range_sign as (_ & _ & Hmono).
  apply Hmono. vm_compute. discriminate.
Defined.

(** *** Overlapping calls *)

Section InterleavingSafety.

Import interleaving.

Lemma step_safe s i :
  ((forall j, pcs s j = pastInit -> variable s = Some defaults) /\
   ((variable s = None /\ constructions s = 0%nat) \/
    (variable s = Some defaults /\ constructions s <> 0%nat))) ->
  (forall j, pcs (step s i) j = pastInit ->
             variable (step s i) = Some defaults) /\
  ((variable (step s i) = None /\ constructions (step s i) = 0%nat) \/
   (variable (step s i) = Some defaults /\
    constructions (step s i) <> 0%nat)).
Proof.
  intros [Hpast Hvar]. unfold step.
  destruct (pcs s i) eqn:Hpc.
  - destruct (variable s) as [lt|] eqn:Hv; cbn; unfold moveTo.
    + destruct Hvar as [[Hn _] | [Hd Hc]]; [discriminate|].
      split; [intros _ _; exact Hd|]. right. split; assumption.
    + split.
      * intros j. destruct (Nat.eqb j i); [discriminate|].
        intros Hj. pose proof (Hpast j Hj). discriminate.
      * destruct Hvar as [[_ Hc] | [Hd _]]; [|discriminate].
        left. split; [reflexivity|exact Hc].
  - cbn. split; [intros _ _; reflexivity|].
    right. split; [reflexivity|discriminate].
  - split; assumption.
Qed.

Lemma run_safe schedule : forall s,
  ((forall j, pcs s j = pastInit -> variable s = Some defaults) /\
   ((variable s = None /\ constructions s = 0%nat) \/
    (variable s = Some defaults /\ constructions s <> 0%nat))) ->
  (forall j, pcs (run schedule s) j = pastInit ->
             variable (run schedule s) = Some defaults) /\
  ((variable (run schedule s) = None /\
    constructions (run schedule s) = 0%nat) \/
   (variable (run schedule s) = Some defaults /\
    constructions (run schedule s) <> 0%nat)).
Proof.
  induction schedule as [|i schedule IH]; intros s H; [exact H|].
  apply (IH (step s i)), step_safe, H.
Qed.

End InterleavingSafety.

(** X8.  However the first calls of [Track] interleave, a call that has
    passed its initialisation finds the defaults in the package variable,
    never nil; and the variable is nil exactly as long as no tracker has
    been built. *)
Theorem interleaved_calls_never_see_nil schedule :
  let s := interleaving.run schedule interleaving.start in
  (forall i,
      interleaving.pcs s i = interleaving.pastInit ->
      interleaving.variable s = Some defaults) /\
  (interleaving.variable s = None <->
   interleaving.constructions s = 0%nat).
Proof.
  cbn zeta.
  destruct (run_safe schedule interleaving.start) as [Hpast Hvar].
  { split; [discriminate|]. left. split; reflexivity. }
  split; [exact Hpast|].
  destruct Hvar as [[Hv Hc] | [Hv Hc]]; rewrite Hv, ?Hc; split;
    intros H; try reflexivity; try discriminate; contradiction.
Qed.

(** The schedule in which two first calls both read nil: the first one to
    finish already finds the defaults. *)
Lemma interleaved_calls_never_see_nil_race :
  let s := interleaving.run [0; 1; 0]%nat interleaving.start in
  interleaving.pcs s 0%nat = interleaving.pastInit /\
  interleaving.variable s = Some defaults /\
  interleaving.constructions s <> 0%nat.
Proof.
  intros s.
  destruct (interleaved_calls_never_see_nil [0; 1; 0]%nat) as [Hpast Hiff].
  split; [reflexivity|].
  split; [apply (Hpast 0%nat); reflexivity|].
  intros Hc. apply Hiff in Hc. discriminate.
Defined.
